(** * COSPAS-SARSAT beacon signal generator (dsPIC33CK firmware)

    A shallow embedding of [newmainXCDSC_final5_cor.c]: the BCH encoders,
    the beacon frame builder, the two precomputed DAC tables and the
    200 kHz Timer1 interrupt handler, followed by the properties the
    specification states about them.

    Machine integers are [Z] with every wrap-around written out; the frame
    buffer is a [list Z] read and written by index; an access outside an
    array is [None]. *)

From Stdlib Require Import ZArith Lia QArith Qabs.
From stdpp Require Import base option list.

Local Open Scope Z_scope.

(** ** Machine integers *)

Module Mach.

(** Conversion to an unsigned integer type of [w] bits. *)
Definition to_unsigned (w : Z) (z : Z) : Z := z mod 2 ^ w.

Definition to_uint8 : Z -> Z := to_unsigned 8.
Definition to_uint16 : Z -> Z := to_unsigned 16.
Definition to_uint32 : Z -> Z := to_unsigned 32.

(** [size_t] of the dsPIC33 toolchain is a 16-bit unsigned integer. *)
Definition to_size_t : Z -> Z := to_unsigned 16.

(** Conversion to [int32_t] (two's complement). *)
Definition to_int32 (z : Z) : Z := (z + 2 ^ 31) mod 2 ^ 32 - 2 ^ 31.

(** [>>] on a signed operand is an arithmetic shift on this target. *)
Definition asr (z n : Z) : Z := Z.shiftr z n.

End Mach.

(** ** Constants of the source *)

Definition SAMPLE_RATE_HZ : Z := 200000.
Definition SYMBOL_RATE_HZ : Z := 400.
Definition SAMPLES_PER_SYMBOL : Z := SAMPLE_RATE_HZ / SYMBOL_RATE_HZ.
Definition DAC_OFFSET : Z := 2048.

Definition COS_1P1_Q15 : Z := 14865.
Definition SIN_1P1_Q15 : Z := 29197.

Definition PREAMBLE_DURATION_MS : Z := 160.
Definition PREAMBLE_PHASE : Z := 0.
Definition DATA_PHASE : Z := 1.
Definition PREAMBLE_SAMPLES : Z := PREAMBLE_DURATION_MS * SAMPLE_RATE_HZ / 1000.
Definition IDLE_SYMBOLS : Z := 2.

Definition SYNC_BITS : Z := 15.
Definition FRAME_SYNC_BITS : Z := 9.
Definition COUNTRY_BITS : Z := 10.
Definition AIRCRAFT_BITS : Z := 24.
Definition POSITION_BITS : Z := 21.
Definition OFFSET_BITS : Z := 20.
Definition BCH_POS_BITS : Z := 10.
Definition BCH_ID_BITS : Z := 12.
Definition MESSAGE_BITS : Z :=
  SYNC_BITS + FRAME_SYNC_BITS + COUNTRY_BITS + AIRCRAFT_BITS + POSITION_BITS
  + OFFSET_BITS + BCH_POS_BITS + BCH_ID_BITS.

Definition BCH_POLY : Z := 0x3B3.

(** ** BCH encoders *)

(** The [n]-bit encoding of [v], most significant bit first: the bits
    [n-1 .. 0] of [v], one list element (0 or 1) per bit. *)
Fixpoint msb_first (n : nat) (v : Z) : list Z :=
  match n with
  | O => []
  | S k => Z.b2z (Z.testbit v (Z.of_nat k)) :: msb_first k v
  end.

(** One turn of the loop body of [bch_encode_31_21]; [reg] is a
    [uint32_t], [bit] and [msb] are [uint8_t]. *)
Definition bch_step (data : Z) (reg : Z) (i : Z) : Z :=
  let bit := Mach.to_uint8 (Z.land (Z.shiftr data i) 1) in
  let msb := Mach.to_uint8 (Z.land (Z.shiftr reg 9) 1) in
  let reg := Z.lor (Mach.to_uint32 (Z.shiftl reg 1)) bit in
  if Z.eqb (Z.lxor msb bit) 0 then reg else Z.lxor reg BCH_POLY.

(** What the conditional [reg ^= BCH_POLY] contributes to the register,
    from the two bits it tests. *)
Definition feedback (msb bit : bool) : Z :=
  if xorb msb bit then BCH_POLY else 0.

(** [for (int i = n - 1; i >= 0; i--)] with the loop body [body]. *)
Fixpoint count_down {A : Type} (body : A -> Z -> A) (n : nat) (acc : A) : A :=
  match n with
  | O => acc
  | S k => count_down body k (body acc (Z.of_nat k))
  end.

Definition bch_encode_31_21 (data : Z) : Z :=
  let reg := 0 in
  let data := Z.land data 0x1FFFFF in
  let reg := count_down (bch_step data) 21 reg in
  Mach.to_uint16 (Z.land reg 0x3FF).

Definition bch_encode_12_12 (data : Z) : Z := data.

(** The LFSR division of the specification (section 4.1), written from its
    three steps: a 10-bit shift register, fed the 21 input bits from bit 20
    down to bit 0. *)
Module Ref.

(** Step 2 for one incoming bit. *)
Definition lfsr_step (reg bit : Z) : Z :=
  let msb := Z.b2z (Z.testbit reg 9) in
  let reg := Z.lor (Z.land (Z.shiftl reg 1) (Z.ones 10)) bit in
  if Z.eqb (Z.lxor msb bit) 1 then Z.lxor reg 0x3B3 else reg.

Definition bch31_21 (data : Z) : Z :=
  let data := Z.land data (Z.ones 21) in
  let reg := fold_left lfsr_step (msb_first 21 data) 0 in
  Z.land reg (Z.ones 10).

End Ref.

(** ** Beacon frame construction *)

(** [a[i]] for a C array held as a list: [None] outside the array. *)
Definition index {A : Type} (a : list A) (i : Z) : option A :=
  if decide (0 <= i) then a !! Z.to_nat i else None.

(** The builder's running state: the buffer [beacon_frame] and the local
    [bit_index]. *)
Definition builder : Type := list Z * Z.

(** [beacon_frame[bit_index++] = v], the element type being [uint8_t].
    [bit_index] is an [int]; the store fails before it could overflow. *)
Definition store_bit (v : Z) (st : builder) : option builder :=
  let '(frame, bit_index) := st in
  if decide (0 <= bit_index < Z.of_nat (length frame))
  then Some (<[Z.to_nat bit_index := Mach.to_uint8 v]> frame, bit_index + 1)
  else None.

(** [for (int i = 0; i < n; i++)] over a fallible body. *)
Fixpoint for_up {A : Type} (body : Z -> A -> option A) (i : Z) (n : nat)
    (acc : A) : option A :=
  match n with
  | O => Some acc
  | S k => body i acc ≫= for_up body (i + 1) k
  end.

(** [for (int i = n - 1; i >= 0; i--)] over a fallible body. *)
Fixpoint for_down {A : Type} (body : Z -> A -> option A) (n : nat)
    (acc : A) : option A :=
  match n with
  | O => Some acc
  | S k => body (Z.of_nat k) acc ≫= for_down body k
  end.

(** The loop shared by every field:
    [for (i = n - 1; i >= 0; i--) beacon_frame[bit_index++] = (v >> i) & 1;] *)
Definition put_field (n : nat) (v : Z) : builder -> option builder :=
  for_down (fun i => store_bit (Z.land (Z.shiftr v i) 1)) n.

Definition frame_sync : Z := 0x1AC.
Definition country_code : Z := 0x2A5.
Definition aircraft_id : Z := 0x00A5F3C.
Definition position : Z := 0x1A5F3.
Definition position_offset : Z := 0x0A5F3.

(** [build_beacon_frame], from the buffer it finds to the buffer it leaves
    and the final value of [bit_index]. *)
Definition build_beacon_frame (frame : list Z) : option builder :=
  let bit_index := 0 in
  st ← for_up (fun _ => store_bit 1) 0 (Z.to_nat SYNC_BITS) (frame, bit_index);
  st ← put_field 9 frame_sync st;
  st ← put_field 10 country_code st;
  st ← put_field 24 aircraft_id st;
  st ← put_field 21 position st;
  st ← put_field 20 position_offset st;
  let position_parity := bch_encode_31_21 position in
  st ← put_field 10 position_parity st;
  let id_parity := bch_encode_12_12 (Mach.to_uint16 (Z.land aircraft_id 0xFFF)) in
  put_field 12 id_parity st.

(** ** Precomputed DAC tables *)

Definition mul32 (a b : Z) : Z := Mach.to_int32 (a * b).
Definition add32 (a b : Z) : Z := Mach.to_int32 (a + b).
Definition sub32 (a b : Z) : Z := Mach.to_int32 (a - b).

(** [(uint16_t)(DAC_OFFSET + (acc >> 18))] *)
Definition dac_code (acc : Z) : Z :=
  Mach.to_uint16 (add32 DAC_OFFSET (Mach.asr acc 18)).

Definition precomputed_dac : list Z :=
  [ dac_code (mul32 32767 COS_1P1_Q15);
    dac_code (mul32 10126 COS_1P1_Q15);
    dac_code (mul32 (-26510) COS_1P1_Q15);
    dac_code (mul32 (-26510) COS_1P1_Q15);
    dac_code (mul32 10126 COS_1P1_Q15) ].

Definition precomputed_symbol_dac : list (list Z) :=
  [ [ dac_code (sub32 (mul32 32767 COS_1P1_Q15) (mul32 0 SIN_1P1_Q15));
      dac_code (sub32 (mul32 10126 COS_1P1_Q15) (mul32 31163 SIN_1P1_Q15));
      dac_code (sub32 (mul32 (-26510) COS_1P1_Q15) (mul32 19260 SIN_1P1_Q15));
      dac_code (sub32 (mul32 (-26510) COS_1P1_Q15) (mul32 (-19260) SIN_1P1_Q15));
      dac_code (sub32 (mul32 10126 COS_1P1_Q15) (mul32 (-31163) SIN_1P1_Q15)) ];
    [ dac_code (add32 (mul32 32767 COS_1P1_Q15) (mul32 0 SIN_1P1_Q15));
      dac_code (add32 (mul32 10126 COS_1P1_Q15) (mul32 31163 SIN_1P1_Q15));
      dac_code (add32 (mul32 (-26510) COS_1P1_Q15) (mul32 19260 SIN_1P1_Q15));
      dac_code (add32 (mul32 (-26510) COS_1P1_Q15) (mul32 (-19260) SIN_1P1_Q15));
      dac_code (add32 (mul32 10126 COS_1P1_Q15) (mul32 (-31163) SIN_1P1_Q15)) ] ].

(** ** Timer1 interrupt handler *)

(** The globals the handler reads and writes, and the registers it drives. *)
Record state : Type := State {
  tx_phase : Z;
  carrier_phase : Z;
  preamble_count : Z;
  idle_count : Z;
  sample_count : Z;
  symbol_index : Z;
  beacon_frame : list Z;
  debug_dac_value : Z;
  DAC1DATH : Z;
  DAC1DATL : Z;
  T1IF : Z
}.

(** [carrier_phase = (carrier_phase < 4) ? carrier_phase + 1 : 0] *)
Definition next_carrier_phase (cp : Z) : Z :=
  if cp <? 4 then Mach.to_uint8 (cp + 1) else 0.

(** The symbol the data phase transmits at this tick. *)
Definition current_symbol (s : state) : option Z :=
  if symbol_index s <? MESSAGE_BITS
  then index (beacon_frame s) (symbol_index s)
  else Some 0.

Definition T1Interrupt (s : state) : option state :=
  if decide (tx_phase s = PREAMBLE_PHASE) then
    dac_val ← index precomputed_dac (carrier_phase s);
    let dath := Z.land (Z.shiftr dac_val 8) 0x0F in
    let datl := Z.land dac_val 0xFF in
    let cp := next_carrier_phase (carrier_phase s) in
    let pc := Mach.to_uint32 (preamble_count s + 1) in
    if PREAMBLE_SAMPLES <=? pc then
      Some (State DATA_PHASE cp 0 (idle_count s) 0 0
                  (beacon_frame s) dac_val dath datl 0)
    else
      Some (State (tx_phase s) cp pc (idle_count s) (sample_count s)
                  (symbol_index s) (beacon_frame s) dac_val dath datl 0)
  else
    sym ← current_symbol s;
    row ← index precomputed_symbol_dac sym;
    dac_val ← index row (carrier_phase s);
    let dath := Z.land (Z.shiftr dac_val 8) 0x0F in
    let datl := Z.land dac_val 0xFF in
    let cp := next_carrier_phase (carrier_phase s) in
    let sc := Mach.to_uint32 (sample_count s + 1) in
    if SAMPLES_PER_SYMBOL <=? sc then
      if symbol_index s <? MESSAGE_BITS then
        Some (State (tx_phase s) cp (preamble_count s) (idle_count s) 0
                    (Mach.to_size_t (symbol_index s + 1))
                    (beacon_frame s) dac_val dath datl 0)
      else
        let ic := Mach.to_uint16 (idle_count s + 1) in
        if IDLE_SYMBOLS <=? ic then
          Some (State PREAMBLE_PHASE cp (preamble_count s) 0 0
                      (symbol_index s) (beacon_frame s) dac_val dath datl 0)
        else
          Some (State (tx_phase s) cp (preamble_count s) ic 0
                      (symbol_index s) (beacon_frame s) dac_val dath datl 0)
    else
      Some (State (tx_phase s) cp (preamble_count s) (idle_count s) sc
                  (symbol_index s) (beacon_frame s) dac_val dath datl 0).

(** [n] consecutive invocations of the handler. *)
Fixpoint ticks (n : nat) (s : state) : option state :=
  match n with
  | O => Some s
  | S k => T1Interrupt s ≫= ticks k
  end.

(** The globals as the C runtime zeroes them before [main]. *)
Definition zero_state : state :=
  State PREAMBLE_PHASE 0 0 0 0 0 (replicate (Z.to_nat MESSAGE_BITS) 0) 0 0 0 0.

(** [main]'s call of [build_beacon_frame], on the global buffer. *)
Definition run_build (s : state) : option state :=
  st ← build_beacon_frame (beacon_frame s);
  Some (State (tx_phase s) (carrier_phase s) (preamble_count s) (idle_count s)
              (sample_count s) (symbol_index s) st.1 (debug_dac_value s)
              (DAC1DATH s) (DAC1DATL s) (T1IF s)).

(** The frame [build_beacon_frame] is to leave in the buffer. *)
Definition built_frame : list Z :=
  replicate 15 1 ++ msb_first 9 0x1AC ++ msb_first 10 0x2A5
  ++ msb_first 24 aircraft_id ++ msb_first 21 position
  ++ msb_first 20 position_offset
  ++ msb_first 10 (bch_encode_31_21 position)
  ++ msb_first 12 (bch_encode_12_12 (Z.land aircraft_id 0xFFF)).

(** The globals when [main] enables the timer interrupt: zeroed, with the
    frame built. *)
Definition boot_state : state :=
  State PREAMBLE_PHASE 0 0 0 0 0 built_frame 0 0 0 0.

(** ** Predicates on the handler's state *)

(** The buffer has its 121 elements and each one is a bit. *)
Definition frame_ok (frame : list Z) : Prop :=
  length frame = Z.to_nat MESSAGE_BITS /\ Forall (fun b => 0 <= b < 2) frame.

(** What the handler needs to run: a carrier phase inside the tables and a
    well-formed frame buffer. *)
Definition ready (s : state) : Prop :=
  0 <= carrier_phase s <= 4 /\ 0 <= symbol_index s
  /\ frame_ok (beacon_frame s).

(** The ranges the specification gives for the counters. *)
Definition bounds (s : state) : Prop :=
  0 <= carrier_phase s <= 4
  /\ 0 <= symbol_index s <= MESSAGE_BITS
  /\ 0 <= sample_count s < SAMPLES_PER_SYMBOL
  /\ 0 <= preamble_count s < PREAMBLE_SAMPLES
  /\ 0 <= idle_count s < IDLE_SYMBOLS.

(** Every array access of one invocation of the handler is inside its
    array. *)
Definition accesses_in_bounds (s : state) : Prop :=
  is_Some (index precomputed_dac (carrier_phase s))
  /\ (symbol_index s < MESSAGE_BITS ->
      is_Some (index (beacon_frame s) (symbol_index s)))
  /\ exists sym row,
      current_symbol s = Some sym
      /\ index precomputed_symbol_dac sym = Some row
      /\ is_Some (index row (carrier_phase s)).

(** The data phase, and how far into the burst it is: the number of data
    ticks since the burst began. *)
Definition in_data (s : state) : Prop :=
  tx_phase s = DATA_PHASE
  /\ 0 <= symbol_index s <= MESSAGE_BITS
  /\ 0 <= sample_count s < SAMPLES_PER_SYMBOL
  /\ 0 <= idle_count s < IDLE_SYMBOLS
  /\ (symbol_index s < MESSAGE_BITS -> idle_count s = 0).

Definition data_pos (s : state) : Z :=
  SAMPLES_PER_SYMBOL * (symbol_index s + idle_count s) + sample_count s.

Definition DATA_SAMPLES : Z :=
  SAMPLES_PER_SYMBOL * MESSAGE_BITS + SAMPLES_PER_SYMBOL * IDLE_SYMBOLS.

(** The states of the running program: the zeroed globals, then [main]'s
    frame construction and the timer's ticks. *)
Inductive reachable : state -> Prop :=
| reach_zero : reachable zero_state
| reach_build s s' : reachable s -> run_build s = Some s' -> reachable s'
| reach_tick s s' : reachable s -> T1Interrupt s = Some s' -> reachable s'.

(** Arithmetic mean of a table, as a rational. *)
Definition mean (l : list Z) : Q :=
  Qdiv (inject_Z (foldr Z.add 0 l)) (inject_Z (Z.of_nat (length l))).

(** ** Reading the frame and the codewords *)

(** The value a receiver reads from a field sent most significant bit
    first. *)
Definition from_msb_first (bits : list Z) : Z :=
  fold_left (fun acc b => 2 * acc + b) bits 0.

(** Number of ones in a list of bits. *)
Definition weight (bits : list Z) : Z := foldr Z.add 0 bits.

(** Hamming distance of [x] and [y] over their low [n] bits. *)
Definition hamming (n : nat) (x y : Z) : Z :=
  weight (msb_first n (Z.lxor x y)).

(** Weight of the 31-bit codeword the frame carries for a position: its 21
    data bits and the 10 parity bits [bch_encode_31_21] adds. *)
Definition codeword_weight (data : Z) : Z :=
  weight (msb_first 21 data) + weight (msb_first 10 (bch_encode_31_21 data)).

(** All lists of [n] bits with at most [k] ones. *)
Fixpoint bit_lists (n k : nat) : list (list Z) :=
  match n with
  | O => [[]]
  | S n' =>
      (cons 0 <$> bit_lists n' k)
      ++ match k with
         | O => []
         | S k' => cons 1 <$> bit_lists n' k'
         end
  end.

(** The check run on every data word of weight at most 2. *)
Definition light_word_ok (bits : list Z) : bool :=
  (from_msb_first bits =? 0) || (3 <=? codeword_weight (from_msb_first bits)).

(** ** DAC start-up *)

Module Hw.

(** The special function registers [init_dac] touches, 16 bits each. *)
Record dac_regs : Type := DacRegs {
  ANSELB : Z;
  TRISB : Z;
  DAC1CONL : Z;
  DAC1CONH : Z;
  DAC1DATH : Z;
  DAC1DATL : Z
}.

Definition init_dac (r : dac_regs) : dac_regs :=
  let anselb := Mach.to_uint16 (Z.lor (ANSELB r) 0x0001) in
  let trisb := Mach.to_uint16 (Z.land (TRISB r) (Z.lnot 0x0001)) in
  let dac1conl := 0x8000 in
  let dac1conl := Mach.to_uint16 (Z.lor dac1conl 0x2000) in
  let dac1conh := 0x0000 in
  let dac1dath := Z.land (Z.shiftr DAC_OFFSET 8) 0x0F in
  let dac1datl := Z.land DAC_OFFSET 0xFF in
  DacRegs anselb trisb dac1conl dac1conh dac1dath dac1datl.

End Hw.

(** ** The transmission cycle *)

(** Carrier phase and counters agree: the phase is the preamble count
    modulo 5 in the preamble and the sample count modulo 5 in the data
    phase, where the preamble count rests at 0; idle symbols are counted
    only after the last frame bit. *)
Definition coherent (s : state) : Prop :=
  (tx_phase s = PREAMBLE_PHASE
   /\ carrier_phase s = preamble_count s mod 5
   /\ idle_count s = 0)
  \/ (tx_phase s = DATA_PHASE
      /\ carrier_phase s = sample_count s mod 5
      /\ preamble_count s = 0
      /\ (symbol_index s < MESSAGE_BITS -> idle_count s = 0)).

(** The first tick of a preamble. *)
Definition cycle_start (s : state) : Prop :=
  tx_phase s = PREAMBLE_PHASE /\ preamble_count s = 0 /\ idle_count s = 0.

Definition CYCLE_SAMPLES : Z := PREAMBLE_SAMPLES + DATA_SAMPLES.

(** ** Proof automation for the handler *)

(** Unfolds one successful invocation into its control-flow paths. *)
Ltac tick_paths H :=
  unfold T1Interrupt in H;
  repeat match type of H with
  | context [decide ?P] => destruct (decide P)
  | context [?a <=? ?b] => destruct (Z.leb_spec a b)
  | context [?a <? ?b] => destruct (Z.ltb_spec a b)
  | (?m ≫= _) = Some _ => destruct m eqn:?; cbn [mbind option_bind] in H
  | None = Some _ => discriminate H
  | Some _ = Some _ => injection H as <-
  end;
  cbn [tx_phase carrier_phase preamble_count idle_count sample_count
       symbol_index beacon_frame].

(** Closes the arithmetic of a path: the constants are numbers and no
    counter wraps. *)
Ltac machine_arith :=
  change MESSAGE_BITS with 121 in *;
  change SAMPLES_PER_SYMBOL with 500 in *;
  change PREAMBLE_SAMPLES with 32000 in *;
  change IDLE_SYMBOLS with 2 in *;
  change DATA_SAMPLES with 61500 in *;
  change DATA_PHASE with 1 in *;
  change PREAMBLE_PHASE with 0 in *;
  unfold Mach.to_uint32, Mach.to_uint16, Mach.to_size_t,
         Mach.to_unsigned in *;
  change (2 ^ 32) with 4294967296 in *;
  change (2 ^ 16) with 65536 in *;
  try (Z.to_euclidean_division_equations; lia).

(** * Properties *)

(** ** Machine integers *)

Lemma to_unsigned_range w z : 0 <= w -> 0 <= Mach.to_unsigned w z < 2 ^ w.
Proof. intros Hw. unfold Mach.to_unsigned. apply Z.mod_pos_bound. lia. Qed.

Lemma to_unsigned_small w z : 0 <= z < 2 ^ w -> Mach.to_unsigned w z = z.
Proof. intros Hz. unfold Mach.to_unsigned. now apply Z.mod_small. Qed.

(** ** Bit-level facts about the encoder's loop body *)

Section BchBits.

Lemma shiftr_land_1 a i : 0 <= i -> Z.land (Z.shiftr a i) 1 = Z.b2z (Z.testbit a i).
Proof.
  intros Hi. change 1 with (Z.ones 1).
  rewrite Z.land_ones, Z.testbit_spec', Z.shiftr_div_pow2 by lia.
  reflexivity.
Qed.

Lemma to_uint8_b2z b : Mach.to_uint8 (Z.b2z b) = Z.b2z b.
Proof. now destruct b. Qed.

Lemma land_lxor_distr_r a b c :
  Z.land (Z.lxor a b) c = Z.lxor (Z.land a c) (Z.land b c).
Proof.
  apply Z.bits_inj'; intros n _.
  rewrite !Z.lxor_spec, !Z.land_spec, Z.lxor_spec.
  now destruct (Z.testbit a n), (Z.testbit b n), (Z.testbit c n).
Qed.

Lemma lxor_swap_pairs a b c d :
  Z.lxor (Z.lxor a b) (Z.lxor c d) = Z.lxor (Z.lxor a c) (Z.lxor b d).
Proof.
  rewrite !Z.lxor_assoc. f_equal.
  rewrite <- !Z.lxor_assoc. f_equal. apply Z.lxor_comm.
Qed.

(** The loop body, in terms of the bits it tests. *)
Lemma bch_step_bits data reg i :
  0 <= i ->
  bch_step data reg i =
  Z.lxor (Z.lxor (Z.land (Z.shiftl reg 1) (Z.ones 32))
                 (Z.b2z (Z.testbit data i)))
         (feedback (Z.testbit reg 9) (Z.testbit data i)).
Proof.
  intros Hi. unfold bch_step, feedback.
  rewrite !shiftr_land_1, !to_uint8_b2z by lia.
  unfold Mach.to_uint32, Mach.to_unsigned. rewrite <- Z.land_ones by lia.
  rewrite <- Z.lxor_lor.
  - destruct (Z.testbit reg 9), (Z.testbit data i); simpl Z.b2z; simpl xorb;
      cbn [Z.lxor Z.eqb Pos.lxor]; now rewrite ?Z.lxor_0_r.
  - apply Z.bits_inj'; intros n Hn.
    rewrite Z.land_spec, Z.land_spec, Z.bits_0.
    destruct (Z.eq_dec n 0) as [->|Hn0].
    + now rewrite Z.shiftl_spec_low by lia.
    + replace (Z.testbit (Z.b2z (Z.testbit data i)) n) with false.
      * apply andb_false_r.
      * symmetry. destruct (Z.testbit data i); simpl.
        -- apply Z.bits_above_log2; simpl; lia.
        -- apply Z.bits_0.
Qed.

End BchBits.

(** ** The encoder is GF(2)-linear *)

Section BchLinear.

Lemma feedback_lxor m1 b1 m2 b2 :
  feedback (xorb m1 m2) (xorb b1 b2) = Z.lxor (feedback m1 b1) (feedback m2 b2).
Proof. now destruct m1, b1, m2, b2. Qed.

Lemma b2z_xorb a b : Z.b2z (xorb a b) = Z.lxor (Z.b2z a) (Z.b2z b).
Proof. now destruct a, b. Qed.

Lemma bch_step_lxor d1 d2 r1 r2 i :
  0 <= i ->
  bch_step (Z.lxor d1 d2) (Z.lxor r1 r2) i =
  Z.lxor (bch_step d1 r1 i) (bch_step d2 r2 i).
Proof.
  intros Hi. rewrite !bch_step_bits by assumption.
  rewrite !Z.lxor_spec, feedback_lxor, b2z_xorb.
  rewrite Z.shiftl_lxor, land_lxor_distr_r.
  rewrite (lxor_swap_pairs (Z.land (Z.shiftl r1 1) _)).
  apply lxor_swap_pairs.
Qed.

Lemma count_down_bch_lxor d1 d2 n : forall r1 r2,
  count_down (bch_step (Z.lxor d1 d2)) n (Z.lxor r1 r2) =
  Z.lxor (count_down (bch_step d1) n r1) (count_down (bch_step d2) n r2).
Proof.
  induction n as [|n IH]; intros r1 r2; simpl.
  - reflexivity.
  - rewrite bch_step_lxor by lia. apply IH.
Qed.

Lemma parity_small reg : Mach.to_uint16 (Z.land reg 0x3FF) = Z.land reg 0x3FF.
Proof.
  apply to_unsigned_small. change 0x3FF with (Z.ones 10).
  rewrite Z.land_ones by lia.
  pose proof (Z.mod_pos_bound reg (2 ^ 10)). lia.
Qed.

End BchLinear.

(** C6. [bch_encode_31_21] is GF(2)-linear: the parity of [A XOR B] is the
    XOR of the parities of [A] and [B], for all inputs (so in particular
    for all 21-bit ones), and the parity of 0 is 0. *)
Theorem bch_encode_31_21_linear :
  (forall A B : Z,
      bch_encode_31_21 (Z.lxor A B) =
      Z.lxor (bch_encode_31_21 A) (bch_encode_31_21 B))
  /\ bch_encode_31_21 0 = 0.
Proof.
  split; [|reflexivity].
  intros A B. unfold bch_encode_31_21.
  rewrite !parity_small, land_lxor_distr_r.
  rewrite <- (Z.lxor_0_l 0) at 1.
  now rewrite count_down_bch_lxor, land_lxor_distr_r.
Qed.

(** C10. The parity does not depend on input bits 21 to 31: masking the
    argument to 21 bits beforehand changes nothing. *)
Theorem bch_encode_31_21_mask (x : Z) :
  bch_encode_31_21 x = bch_encode_31_21 (Z.land x 0x1FFFFF).
Proof.
  unfold bch_encode_31_21.
  now rewrite <- Z.land_assoc, Z.land_diag.
Qed.

(** ** The encoder against the specification's LFSR *)

Section BchRefines.

Lemma land_shiftl_ones10 r :
  Z.land (Z.shiftl (Z.land r (Z.ones 10)) 1) (Z.ones 10) =
  Z.land (Z.shiftl r 1) (Z.ones 10).
Proof.
  rewrite !Z.land_ones, !Z.shiftl_mul_pow2 by lia.
  rewrite Z.mul_mod_idemp_l by lia. reflexivity.
Qed.

(** The low ten bits of the 32-bit [reg] follow the 10-bit register. *)
Lemma bch_step_refines data reg i :
  0 <= i ->
  Z.land (bch_step data reg i) (Z.ones 10) =
  Ref.lfsr_step (Z.land reg (Z.ones 10)) (Z.b2z (Z.testbit data i)).
Proof.
  intros Hi. rewrite bch_step_bits by assumption. unfold Ref.lfsr_step.
  rewrite land_shiftl_ones10.
  assert (Hmsb : Z.testbit (Z.land reg (Z.ones 10)) 9 = Z.testbit reg 9).
  { rewrite Z.land_spec. change (Z.testbit (Z.ones 10) 9) with true.
    apply andb_true_r. }
  rewrite Hmsb, !land_lxor_distr_r, <- Z.land_assoc.
  change (Z.land (Z.ones 32) (Z.ones 10)) with (Z.ones 10).
  assert (Hlow : Z.land (Z.land (Z.shiftl reg 1) (Z.ones 10))
                        (Z.b2z (Z.testbit data i)) = 0).
  { apply Z.bits_inj'; intros n Hn.
    rewrite !Z.land_spec, Z.bits_0.
    destruct (Z.eq_dec n 0) as [->|Hn0].
    - now rewrite Z.shiftl_spec_low by lia.
    - replace (Z.testbit (Z.b2z (Z.testbit data i)) n) with false.
      + apply andb_false_r.
      + symmetry. destruct (Z.testbit data i); simpl.
        * apply Z.bits_above_log2; simpl; lia.
        * apply Z.bits_0. }
  rewrite <- (Z.lxor_lor _ _ Hlow).
  destruct (Z.testbit reg 9), (Z.testbit data i); simpl Z.b2z;
    unfold feedback; simpl xorb; cbn [Z.lxor Z.eqb Pos.lxor Pos.eqb];
    change (Z.land BCH_POLY (Z.ones 10)) with BCH_POLY;
    change (Z.land 1 (Z.ones 10)) with 1;
    change (Z.land 0 (Z.ones 10)) with 0;
    rewrite ?Z.lxor_0_r; reflexivity.
Qed.

Lemma count_down_refines data n : forall reg,
  Z.land (count_down (bch_step data) n reg) (Z.ones 10) =
  fold_left Ref.lfsr_step (msb_first n data)
            (Z.land reg (Z.ones 10)).
Proof.
  induction n as [|n IH]; intros reg; simpl.
  - reflexivity.
  - rewrite IH, bch_step_refines by lia. reflexivity.
Qed.

End BchRefines.

(** C5. [bch_encode_31_21] computes the LFSR division of the specification:
    for every input (hence every 21-bit one) the result of the source's
    loop over a 32-bit register equals the reference's, which keeps a
    10-bit register. *)
Theorem bch_encode_31_21_refines (data : Z) :
  bch_encode_31_21 data = Ref.bch31_21 data.
Proof.
  unfold bch_encode_31_21, Ref.bch31_21.
  rewrite parity_small.
  change 0x3FF with (Z.ones 10). change 0x1FFFFF with (Z.ones 21).
  pose proof (count_down_refines (Z.land data (Z.ones 21)) 21 0) as Hsim.
  change (Z.land 0 (Z.ones 10)) with 0 in Hsim.
  now rewrite <- Hsim, <- Z.land_assoc, Z.land_diag.
Qed.

(** ** The identity encoder *)

(** C7, as stated, fails: the encoder does no masking, so an input with a
    bit set above bit 11 comes back unchanged instead of reduced to its low
    12 bits. *)
Lemma bch_encode_12_12_keeps_high_bits :
  0 <= 0x1000 < 2 ^ 16 /\ bch_encode_12_12 0x1000 <> Z.land 0x1000 0xFFF.
Proof. split; [lia | discriminate]. Qed.

(** C7, amended. For every 16-bit input the encoder returns the input
    itself; the result is the low 12 bits of the input exactly when the
    input is below 4096, which is what the masking at the call site in
    [build_beacon_frame] provides. *)
Theorem bch_encode_12_12_identity (x : Z) :
  0 <= x < 2 ^ 16 ->
  bch_encode_12_12 x = x
  /\ (bch_encode_12_12 x = Z.land x 0xFFF <-> x < 2 ^ 12).
Proof.
  intros Hx. unfold bch_encode_12_12. split; [reflexivity|].
  change 0xFFF with (Z.ones 12). rewrite Z.land_ones by lia.
  pose proof (Z.mod_pos_bound x (2 ^ 12)).
  split.
  - lia.
  - intros Hlt. rewrite Z.mod_small; lia.
Qed.

Lemma bch_encode_12_12_identity_witness :
  (0 <= 0xF3C < 2 ^ 16)
  /\ bch_encode_12_12 0xF3C = 0xF3C
  /\ (bch_encode_12_12 0xF3C = Z.land 0xF3C 0xFFF <-> 0xF3C < 2 ^ 12).
Proof.
  split; [lia | apply (bch_encode_12_12_identity 0xF3C); lia].
Defined.

(** ** The precomputed tables *)

(** C1. The five carrier codes are 12-bit codes, but six of the ten symbol
    codes are not: at symbol 0, carrier phase 1 the 32-bit sum is negative
    beyond the offset and the conversion to [uint16_t] wraps it to 64687;
    at symbol 0, carrier phase 4 the code is 6093. The handler meets the
    first of them 40502 ticks after start-up (frame bit 17, a 0, at carrier
    phase 1): it reports 64687 and the DAC registers receive 0xC, 0xAF. *)
Theorem precomputed_symbol_dac_out_of_range :
  precomputed_dac = [3906; 2622; 544; 544; 2622]
  /\ precomputed_symbol_dac =
     [ [3906; 64687; 63935; 2689; 6093]; [3906; 6093; 2689; 63935; 64687] ]
  /\ (index precomputed_symbol_dac 0 ≫= fun row => index row 1) = Some 64687
  /\ ~ 0 <= 64687 <= 4095
  /\ Forall (fun c => 0 <= c <= 4095) precomputed_dac
  /\ ~ Forall (fun c => 0 <= c <= 4095) (concat precomputed_symbol_dac)
  /\ ticks (Z.to_nat 40501) boot_state =
     Some (State DATA_PHASE 1 0 0 1 17 built_frame 3906 15 66 0)
  /\ T1Interrupt (State DATA_PHASE 1 0 0 1 17 built_frame 3906 15 66 0) =
     Some (State DATA_PHASE 2 0 0 2 17 built_frame 64687 0xC 0xAF 0).
Proof.
  split; [reflexivity|]. split; [reflexivity|]. split; [reflexivity|].
  split; [lia|]. split; [|split; [|split]].
  - apply (bool_decide_unpack _). vm_compute. exact I.
  - apply (bool_decide_unpack _). vm_compute. exact I.
  - vm_compute. reflexivity.
  - vm_compute. reflexivity.
Qed.

(** C9. The mean of the five carrier codes is within 2 of mid-scale. *)
Theorem precomputed_dac_mean :
  (Qabs (mean precomputed_dac - inject_Z DAC_OFFSET) <= 2)%Q.
Proof. vm_compute. discriminate. Qed.

(** ** The frame builder *)

Section Builder.

Lemma store_bit_spec v (pre : list Z) x post idx :
  idx = Z.of_nat (length pre) ->
  store_bit v (pre ++ x :: post, idx) =
  Some ((pre ++ [Mach.to_uint8 v]) ++ post, idx + 1).
Proof.
  intros ->. unfold store_bit.
  rewrite decide_True by (rewrite length_app; simpl; lia).
  rewrite Nat2Z.id, insert_app_r_alt, Nat.sub_diag by lia.
  simpl. now rewrite <- app_assoc.
Qed.

Lemma length_msb_first n v : length (msb_first n v) = n.
Proof. induction n; simpl; congruence. Qed.

(** One field loop overwrites the [n] elements at [bit_index] with the
    field's bits and advances [bit_index] by [n]. *)
Lemma put_field_spec n v : forall (pre mid post : list Z) idx,
  length mid = n ->
  idx = Z.of_nat (length pre) ->
  put_field n v (pre ++ mid ++ post, idx) =
  Some ((pre ++ msb_first n v) ++ post, idx + Z.of_nat n).
Proof.
  unfold put_field.
  induction n as [|n IH]; intros pre mid post idx Hmid Hidx.
  - destruct mid; [|discriminate]. simpl.
    now rewrite app_nil_r, Z.add_0_r.
  - destruct mid as [|x mid]; [discriminate|].
    injection Hmid as Hmid. cbn [for_down].
    rewrite <- app_comm_cons, store_bit_spec by assumption.
    cbn [mbind option_bind].
    rewrite (IH _ mid post) by (rewrite ?length_app; simpl; lia).
    rewrite shiftr_land_1, to_uint8_b2z by lia.
    cbn [msb_first]. rewrite <- (app_assoc pre). simpl.
    do 2 f_equal. lia.
Qed.

(** The sync loop does the same with [n] copies of its constant. *)
Lemma sync_loop_spec n v : forall (pre mid post : list Z) idx i,
  length mid = n ->
  idx = Z.of_nat (length pre) ->
  0 <= v < 2 ^ 8 ->
  for_up (fun _ => store_bit v) i n (pre ++ mid ++ post, idx) =
  Some ((pre ++ replicate n v) ++ post, idx + Z.of_nat n).
Proof.
  induction n as [|n IH]; intros pre mid post idx i Hmid Hidx Hv.
  - destruct mid; [|discriminate]. simpl.
    now rewrite app_nil_r, Z.add_0_r.
  - destruct mid as [|x mid]; [discriminate|].
    injection Hmid as Hmid. cbn [for_up].
    rewrite <- app_comm_cons, store_bit_spec by assumption.
    cbn [mbind option_bind].
    rewrite (IH _ mid post) by (rewrite ?length_app; simpl; lia).
    rewrite (to_unsigned_small 8) by assumption.
    cbn [replicate]. rewrite <- (app_assoc pre). simpl.
    do 2 f_equal. lia.
Qed.

(** A list of [a + b] elements is a list of [a] followed by one of [b]. *)
Lemma split_length (l : list Z) a b :
  length l = (a + b)%nat ->
  exists l1 l2, l = l1 ++ l2 /\ length l1 = a /\ length l2 = b.
Proof.
  intros Hl. exists (take a l), (drop a l).
  split; [symmetry; apply take_drop|].
  rewrite length_take, length_drop. lia.
Qed.

Lemma built_frame_ok : frame_ok built_frame.
Proof.
  split; [reflexivity|].
  apply (bool_decide_unpack _). vm_compute. exact I.
Qed.

(** The builder fills any 121-element buffer with [built_frame]. *)
Lemma build_beacon_frame_built (frame : list Z) :
  length frame = Z.to_nat MESSAGE_BITS ->
  build_beacon_frame frame = Some (built_frame, 121).
Proof.
  intros Hlen.
  change (Z.to_nat MESSAGE_BITS)
    with (15 + (9 + (10 + (24 + (21 + (20 + (10 + 12)))))))%nat in Hlen.
  destruct (split_length _ _ _ Hlen) as (m1 & r1 & -> & H1 & Hr1).
  destruct (split_length _ _ _ Hr1) as (m2 & r2 & -> & H2 & Hr2).
  destruct (split_length _ _ _ Hr2) as (m3 & r3 & -> & H3 & Hr3).
  destruct (split_length _ _ _ Hr3) as (m4 & r4 & -> & H4 & Hr4).
  destruct (split_length _ _ _ Hr4) as (m5 & r5 & -> & H5 & Hr5).
  destruct (split_length _ _ _ Hr5) as (m6 & r6 & -> & H6 & Hr6).
  destruct (split_length _ _ _ Hr6) as (m7 & m8 & -> & H7 & H8).
  unfold build_beacon_frame.
  change (Z.to_nat SYNC_BITS) with 15%nat.
  rewrite <- (app_nil_l (m1 ++ _)).
  rewrite (sync_loop_spec 15 1 [] m1) by (trivial; lia).
  cbn [mbind option_bind].
  rewrite (put_field_spec 9 _ _ m2) by (trivial; reflexivity).
  cbn [mbind option_bind].
  rewrite (put_field_spec 10 _ _ m3) by (trivial; reflexivity).
  cbn [mbind option_bind].
  rewrite (put_field_spec 24 _ _ m4) by (trivial; reflexivity).
  cbn [mbind option_bind].
  rewrite (put_field_spec 21 _ _ m5) by (trivial; reflexivity).
  cbn [mbind option_bind].
  rewrite (put_field_spec 20 _ _ m6) by (trivial; reflexivity).
  cbn [mbind option_bind].
  rewrite (put_field_spec 10 _ _ m7) by (trivial; reflexivity).
  cbn [mbind option_bind].
  rewrite <- (app_nil_r m8).
  rewrite (put_field_spec 12 _ _ m8 []) by (trivial; reflexivity).
  reflexivity.
Qed.

End Builder.

(** C4. Whatever the 121-element buffer holds beforehand,
    [build_beacon_frame] succeeds, ends with [bit_index] at 121 and leaves
    the eight segments in order at their positions: 15 ones, then the
    MSB-first encodings of 0x1AC (9 bits), of the country code 0x2A5
    (10 bits, 1010100101), of the aircraft id (24), of the position (21),
    of the offset (20), of [bch_encode_31_21 position] (10) and of
    [bch_encode_12_12 (aircraft_id & 0xFFF)] (12). *)
Theorem build_beacon_frame_layout (frame : list Z) :
  length frame = Z.to_nat MESSAGE_BITS ->
  exists frame',
    build_beacon_frame frame = Some (frame', 121)
    /\ MESSAGE_BITS = 121
    /\ length frame' = 121%nat
    /\ frame' =
       replicate 15 1 ++ msb_first 9 0x1AC ++ msb_first 10 0x2A5
       ++ msb_first 24 aircraft_id ++ msb_first 21 position
       ++ msb_first 20 position_offset
       ++ msb_first 10 (bch_encode_31_21 position)
       ++ msb_first 12 (bch_encode_12_12 (Z.land aircraft_id 0xFFF))
    /\ take 15 frame' = replicate 15 1
    /\ take 9 (drop 15 frame') = msb_first 9 0x1AC
    /\ take 10 (drop 24 frame') = msb_first 10 0x2A5
    /\ take 10 (drop 24 frame') = [1; 0; 1; 0; 1; 0; 0; 1; 0; 1]
    /\ take 24 (drop 34 frame') = msb_first 24 aircraft_id
    /\ take 21 (drop 58 frame') = msb_first 21 position
    /\ take 20 (drop 79 frame') = msb_first 20 position_offset
    /\ take 10 (drop 99 frame') = msb_first 10 (bch_encode_31_21 position)
    /\ drop 109 frame' =
       msb_first 12 (bch_encode_12_12 (Z.land aircraft_id 0xFFF)).
Proof.
  intros Hlen. exists built_frame.
  split; [now apply build_beacon_frame_built|].
  repeat split; reflexivity.
Qed.

Lemma build_beacon_frame_layout_witness :
  length (beacon_frame zero_state) = Z.to_nat MESSAGE_BITS
  /\ exists frame',
      build_beacon_frame (beacon_frame zero_state) = Some (frame', 121)
      /\ take 10 (drop 24 frame') = [1; 0; 1; 0; 1; 0; 0; 1; 0; 1].
Proof.
  split; [reflexivity|].
  destruct (build_beacon_frame_layout (beacon_frame zero_state))
    as (frame' & Hrun & _ & _ & _ & _ & _ & _ & Hcc & _).
  - reflexivity.
  - exists frame'. split; assumption.
Defined.

(** ** The interrupt handler, one tick *)

Section Tick.

Lemma next_carrier_phase_mod cp :
  0 <= cp <= 4 -> next_carrier_phase cp = (cp + 1) mod 5.
Proof.
  intros Hcp. unfold next_carrier_phase, Mach.to_uint8, Mach.to_unsigned.
  destruct (Z.ltb_spec cp 4).
  - rewrite !Z.mod_small; lia.
  - now replace cp with 4 by lia.
Qed.

Lemma index_is_Some {A : Type} (a : list A) i :
  0 <= i < Z.of_nat (length a) -> is_Some (index a i).
Proof.
  intros Hi. unfold index. rewrite decide_True by lia.
  apply lookup_lt_is_Some_2. lia.
Qed.

Lemma index_Forall {A : Type} (P : A -> Prop) (a : list A) i x :
  Forall P a -> index a i = Some x -> P x.
Proof.
  unfold index. intros Ha Hx. case_decide; [|discriminate].
  eapply Forall_lookup_1; eassumption.
Qed.

(** The symbol of a ready state exists and is a bit. *)
Lemma current_symbol_ready s :
  ready s -> exists sym, current_symbol s = Some sym /\ 0 <= sym < 2.
Proof.
  intros (_ & Hsi & Hlen & Hbits). unfold current_symbol.
  destruct (Z.ltb_spec (symbol_index s) MESSAGE_BITS) as [Hlt|_].
  - destruct (index_is_Some (beacon_frame s) (symbol_index s)) as [b Hb].
    { rewrite Hlen. lia. }
    exists b. split; [assumption|].
    exact (index_Forall _ _ _ _ Hbits Hb).
  - exists 0. split; [reflexivity | lia].
Qed.

Lemma accesses_ready s : ready s -> accesses_in_bounds s.
Proof.
  intros Hs. pose proof Hs as (Hcp & Hsi & Hlen & Hbits).
  split; [|split].
  - apply index_is_Some. simpl. lia.
  - intros Hlt. apply index_is_Some. rewrite Hlen. lia.
  - destruct (current_symbol_ready s Hs) as (sym & Hsym & Hbit).
    assert (sym = 0 \/ sym = 1) as [-> | ->] by lia.
    + eexists 0, _. split; [eassumption|]. split; [reflexivity|].
      apply index_is_Some. simpl. lia.
    + eexists 1, _. split; [eassumption|]. split; [reflexivity|].
      apply index_is_Some. simpl. lia.
Qed.

(** The handler returns on every ready state. *)
Lemma T1Interrupt_total s : ready s -> is_Some (T1Interrupt s).
Proof.
  intros Hs.
  destruct (accesses_ready s Hs)
    as ([dac0 Hdac0] & _ & sym & row & Hsym & Hrow & [dac1 Hdac1]).
  unfold T1Interrupt.
  rewrite Hdac0, Hsym. cbn [mbind option_bind].
  rewrite Hrow. cbn [mbind option_bind].
  rewrite Hdac1. cbn [mbind option_bind].
  repeat case_match; eauto.
Qed.

Lemma T1Interrupt_frame s s' :
  T1Interrupt s = Some s' -> beacon_frame s' = beacon_frame s.
Proof. intros H. tick_paths H; reflexivity. Qed.

Lemma T1Interrupt_carrier s s' :
  T1Interrupt s = Some s' ->
  carrier_phase s' = next_carrier_phase (carrier_phase s).
Proof. intros H. tick_paths H; reflexivity. Qed.

Lemma T1Interrupt_ready s s' :
  ready s -> T1Interrupt s = Some s' -> ready s'.
Proof.
  intros (Hcp & Hsi & Hf) H. unfold ready.
  rewrite (T1Interrupt_frame _ _ H), (T1Interrupt_carrier _ _ H).
  rewrite next_carrier_phase_mod by assumption.
  pose proof (Z.mod_pos_bound (carrier_phase s + 1) 5 ltac:(lia)).
  split; [lia|]. split; [|assumption].
  tick_paths H; try lia; apply to_unsigned_range; lia.
Qed.

Lemma T1Interrupt_bounds s s' :
  bounds s -> T1Interrupt s = Some s' -> bounds s'.
Proof.
  intros (Hcp & Hsi & Hsc & Hpc & Hic) H. unfold bounds.
  rewrite (T1Interrupt_carrier _ _ H).
  rewrite next_carrier_phase_mod by assumption.
  pose proof (Z.mod_pos_bound (carrier_phase s + 1) 5 ltac:(lia)).
  tick_paths H; machine_arith.
Qed.

End Tick.

(** ** Consecutive ticks *)

Section Ticks.

Lemma ticks_add a b s : ticks (a + b) s = ticks a s ≫= ticks b.
Proof.
  revert s. induction a as [|a IH]; intros s; simpl.
  - reflexivity.
  - destruct (T1Interrupt s) as [s1|]; simpl; [apply IH | reflexivity].
Qed.

(** From a ready state any number of ticks runs, and the carrier phase
    has advanced by that number modulo 5. *)
Lemma ticks_ready n : forall s,
  ready s ->
  exists s', ticks n s = Some s' /\ ready s'
             /\ beacon_frame s' = beacon_frame s
             /\ carrier_phase s' = (carrier_phase s + Z.of_nat n) mod 5.
Proof.
  induction n as [|n IH]; intros s Hs.
  - exists s. pose proof Hs as (Hcp & _).
    repeat split; try apply Hs. rewrite Z.add_0_r, Z.mod_small; lia.
  - destruct (T1Interrupt_total s Hs) as [s1 H1].
    pose proof (T1Interrupt_ready _ _ Hs H1) as Hs1.
    destruct (IH s1 Hs1) as (s' & Hrun & Hs' & Hfr & Hcp).
    exists s'. cbn [ticks]. rewrite H1. cbn [mbind option_bind].
    split; [assumption|]. split; [assumption|]. split.
    + rewrite Hfr. eapply T1Interrupt_frame; eassumption.
    + rewrite Hcp, (T1Interrupt_carrier _ _ H1).
      rewrite next_carrier_phase_mod by apply Hs.
      rewrite Z.add_mod_idemp_l by lia. f_equal. lia.
Qed.

(** A preamble tick short of the last one only counts. *)
Lemma preamble_tick s s' :
  tx_phase s = PREAMBLE_PHASE ->
  0 <= preamble_count s -> preamble_count s + 1 < PREAMBLE_SAMPLES ->
  T1Interrupt s = Some s' ->
  tx_phase s' = PREAMBLE_PHASE
  /\ preamble_count s' = preamble_count s + 1
  /\ sample_count s' = sample_count s
  /\ idle_count s' = idle_count s.
Proof. intros Hp H0 Hlt H. tick_paths H; machine_arith. Qed.

(** The last preamble tick opens the data phase. *)
Lemma preamble_last_tick s s' :
  tx_phase s = PREAMBLE_PHASE ->
  preamble_count s + 1 = PREAMBLE_SAMPLES ->
  T1Interrupt s = Some s' ->
  tx_phase s' = DATA_PHASE
  /\ preamble_count s' = 0 /\ symbol_index s' = 0 /\ sample_count s' = 0
  /\ idle_count s' = idle_count s.
Proof. intros Hp Hlt H. tick_paths H; machine_arith. Qed.

Lemma preamble_ticks k : forall s,
  ready s -> tx_phase s = PREAMBLE_PHASE ->
  0 <= preamble_count s ->
  preamble_count s + Z.of_nat k < PREAMBLE_SAMPLES ->
  exists s', ticks k s = Some s' /\ ready s'
             /\ tx_phase s' = PREAMBLE_PHASE
             /\ preamble_count s' = preamble_count s + Z.of_nat k
             /\ sample_count s' = sample_count s
             /\ idle_count s' = idle_count s.
Proof.
  induction k as [|k IH]; intros s Hs Hp H0 Hlt.
  - exists s. repeat split; try apply Hs; try assumption; lia.
  - destruct (T1Interrupt_total s Hs) as [s1 H1].
    pose proof (T1Interrupt_ready _ _ Hs H1) as Hs1.
    destruct (preamble_tick s s1) as (Hp1 & Hpc1 & Hsc1 & Hic1);
      try assumption; try lia.
    destruct (IH s1) as (s' & Hrun & Hs' & Hp' & Hpc' & Hsc' & Hic');
      try assumption; try lia.
    exists s'. cbn [ticks]. rewrite H1. cbn [mbind option_bind].
    repeat split; try apply Hs'; try assumption; lia.
Qed.

(** A data tick short of the last one moves one tick further into the
    burst. *)
Lemma data_tick s s' :
  in_data s -> data_pos s + 1 < DATA_SAMPLES ->
  T1Interrupt s = Some s' ->
  in_data s' /\ data_pos s' = data_pos s + 1
  /\ preamble_count s' = preamble_count s.
Proof.
  intros (Hp & Hsi & Hsc & Hic & Hidle) Hlt H.
  unfold in_data, data_pos, DATA_SAMPLES in *.
  tick_paths H; machine_arith.
Qed.

(** The last data tick returns to the preamble. *)
Lemma data_last_tick s s' :
  in_data s -> data_pos s + 1 = DATA_SAMPLES ->
  T1Interrupt s = Some s' ->
  tx_phase s' = PREAMBLE_PHASE /\ idle_count s' = 0
  /\ preamble_count s' = preamble_count s.
Proof.
  intros (Hp & Hsi & Hsc & Hic & Hidle) Hlt H.
  unfold in_data, data_pos, DATA_SAMPLES in *.
  tick_paths H; machine_arith.
Qed.

Lemma data_ticks k : forall s,
  ready s -> in_data s ->
  data_pos s + Z.of_nat k < DATA_SAMPLES ->
  exists s', ticks k s = Some s' /\ ready s' /\ in_data s'
             /\ data_pos s' = data_pos s + Z.of_nat k
             /\ preamble_count s' = preamble_count s
             /\ beacon_frame s' = beacon_frame s.
Proof.
  induction k as [|k IH]; intros s Hs Hd Hlt.
  - exists s. repeat split; try apply Hs; try apply Hd; lia.
  - destruct (T1Interrupt_total s Hs) as [s1 H1].
    pose proof (T1Interrupt_ready _ _ Hs H1) as Hs1.
    destruct (data_tick s s1) as (Hd1 & Hpos1 & Hpc1);
      try assumption; try lia.
    destruct (IH s1) as (s' & Hrun & Hs' & Hd' & Hpos' & Hpc' & Hfr');
      try assumption; try lia.
    exists s'. cbn [ticks]. rewrite H1. cbn [mbind option_bind].
    split; [assumption|]. split; [assumption|]. split; [assumption|].
    split; [lia|]. split; [congruence|].
    rewrite Hfr'. eapply T1Interrupt_frame; eassumption.
Qed.

(** Where the burst is, from how far into it the state is. *)
Lemma data_pos_symbol s :
  in_data s -> 0 <= data_pos s ->
  symbol_index s = Z.min (data_pos s / SAMPLES_PER_SYMBOL) MESSAGE_BITS
  /\ (SAMPLES_PER_SYMBOL * MESSAGE_BITS <= data_pos s ->
      current_symbol s = Some 0)
  /\ (data_pos s < SAMPLES_PER_SYMBOL * MESSAGE_BITS ->
      current_symbol s =
      index (beacon_frame s) (data_pos s / SAMPLES_PER_SYMBOL)).
Proof.
  intros (Hp & Hsi & Hsc & Hic & Hidle) Hpos.
  unfold data_pos, current_symbol in *.
  destruct (Z.ltb_spec (symbol_index s) MESSAGE_BITS) as [Hlt|Hge].
  - rewrite (Hidle Hlt) in *.
    assert (Hdiv : (SAMPLES_PER_SYMBOL * (symbol_index s + 0)
                    + sample_count s) / SAMPLES_PER_SYMBOL
                   = symbol_index s) by machine_arith.
    rewrite Hdiv. repeat split; machine_arith.
  - repeat split; machine_arith.
Qed.

End Ticks.

(** ** The running program *)

Section Program.

Lemma zero_state_ready : ready zero_state.
Proof.
  split; [simpl; lia|]. split; [simpl; lia|]. split; [reflexivity|].
  apply (bool_decide_unpack _). vm_compute. exact I.
Qed.

Lemma zero_state_bounds : bounds zero_state.
Proof. unfold bounds. simpl. machine_arith. Qed.

(** [boot_state] is what [main] reaches by building the frame. *)
Lemma run_build_zero_state : run_build zero_state = Some boot_state.
Proof. reflexivity. Qed.

Lemma run_build_ready s s' :
  ready s -> run_build s = Some s' ->
  ready s' /\ (bounds s -> bounds s').
Proof.
  intros (Hcp & Hsi & Hlen & Hbits) H. unfold run_build in H.
  rewrite (build_beacon_frame_built _ Hlen) in H.
  cbn [mbind option_bind] in H. injection H as <-.
  split; [|exact (fun Hb => Hb)].
  split; [assumption|]. split; [assumption|]. exact built_frame_ok.
Qed.

Lemma reachable_ready s : reachable s -> ready s /\ bounds s.
Proof.
  induction 1 as [|s s' _ [Hr Hb] Hrun|s s' _ [Hr Hb] Hrun].
  - split; [exact zero_state_ready | exact zero_state_bounds].
  - destruct (run_build_ready _ _ Hr Hrun) as [Hr' Hb']. auto.
  - split; [eapply T1Interrupt_ready | eapply T1Interrupt_bounds];
      eassumption.
Qed.

End Program.

(** C8. In every state the program reaches from the zeroed globals (by
    [main]'s frame construction and by ticks) the carrier phase is in
    [0, 4], [symbol_index] is at most 121, [sample_count] is below 500,
    [preamble_count] below 32000 and [idle_count] below 2; every array
    access of the next invocation of the handler is in bounds, and the
    handler returns. *)
Theorem reachable_in_bounds (s : state) :
  reachable s ->
  bounds s /\ accesses_in_bounds s /\ is_Some (T1Interrupt s).
Proof.
  intros Hs. destruct (reachable_ready s Hs) as [Hr Hb].
  split; [assumption|]. split.
  - now apply accesses_ready.
  - now apply T1Interrupt_total.
Qed.

Lemma reachable_in_bounds_witness :
  reachable boot_state
  /\ bounds boot_state /\ accesses_in_bounds boot_state
  /\ is_Some (T1Interrupt boot_state).
Proof.
  assert (Hreach : reachable boot_state).
  { apply (reach_build zero_state); [constructor | reflexivity]. }
  split; [exact Hreach | exact (reachable_in_bounds boot_state Hreach)].
Defined.

(** C3. On every invocation of the handler from a state it can run in
    (carrier phase inside the tables, well-formed frame buffer), whatever
    the phase and the counters, the carrier phase advances by one modulo 5;
    hence after [N] ticks it has advanced by [N] modulo 5, and from
    carrier phase 0 it equals [N mod 5]. *)
Theorem carrier_phase_advances (s : state) :
  ready s ->
  (exists s', T1Interrupt s = Some s'
              /\ carrier_phase s' = (carrier_phase s + 1) mod 5)
  /\ (forall N : nat, exists sN,
        ticks N s = Some sN
        /\ carrier_phase sN = (carrier_phase s + Z.of_nat N) mod 5)
  /\ (carrier_phase s = 0 ->
      forall N : nat, exists sN,
        ticks N s = Some sN /\ carrier_phase sN = Z.of_nat N mod 5).
Proof.
  intros Hs. split; [|split].
  - destruct (T1Interrupt_total s Hs) as [s' H']. exists s'.
    split; [assumption|].
    rewrite (T1Interrupt_carrier _ _ H').
    apply next_carrier_phase_mod, Hs.
  - intros N. destruct (ticks_ready N s Hs) as (sN & Hrun & _ & _ & Hcp).
    now exists sN.
  - intros H0 N. destruct (ticks_ready N s Hs) as (sN & Hrun & _ & _ & Hcp).
    exists sN. split; [assumption|]. now rewrite Hcp, H0.
Qed.

Lemma carrier_phase_advances_witness :
  ready boot_state
  /\ exists s7, ticks 7 boot_state = Some s7 /\ carrier_phase s7 = 2.
Proof.
  assert (Hr : ready boot_state).
  { split; [simpl; lia|]. split; [simpl; lia|]. split; [reflexivity|].
    apply (bool_decide_unpack _). vm_compute. exact I. }
  split; [exact Hr|].
  destruct (carrier_phase_advances boot_state Hr) as (_ & _ & Hn).
  exact (Hn eq_refl 7%nat).
Defined.

(** C2. From a preamble state with [preamble_count], [sample_count] and
    [idle_count] at 0 (and in which the handler can run), the handler
    stays in the preamble phase for 32000 ticks and the 32000th one enters
    the data phase with [symbol_index], [sample_count] and
    [preamble_count] at 0; it then stays in the data phase for 61500
    ticks, tick [k] of which transmits frame bit [k / 500] while
    [k < 500 * 121] and the bit 0 during the two idle symbol periods that
    follow; the 61500th one is back in the preamble phase with
    [preamble_count] and [idle_count] at 0. *)
Theorem tick_cycle (s : state) :
  ready s ->
  tx_phase s = PREAMBLE_PHASE ->
  preamble_count s = 0 -> sample_count s = 0 -> idle_count s = 0 ->
  PREAMBLE_SAMPLES = 32000
  /\ DATA_SAMPLES = 500 * 121 + 500 * 2
  /\ (forall k : nat,
        Z.of_nat k < PREAMBLE_SAMPLES ->
        exists sk, ticks k s = Some sk /\ tx_phase sk = PREAMBLE_PHASE)
  /\ exists s1,
      ticks (Z.to_nat PREAMBLE_SAMPLES) s = Some s1
      /\ tx_phase s1 = DATA_PHASE
      /\ symbol_index s1 = 0 /\ sample_count s1 = 0 /\ preamble_count s1 = 0
      /\ (forall k : nat,
            Z.of_nat k < DATA_SAMPLES ->
            exists sk,
              ticks k s1 = Some sk
              /\ tx_phase sk = DATA_PHASE
              /\ symbol_index sk = Z.min (Z.of_nat k / 500) 121
              /\ current_symbol sk =
                 if Z.of_nat k <? 500 * 121
                 then index (beacon_frame s) (Z.of_nat k / 500)
                 else Some 0)
      /\ exists s2,
          ticks (Z.to_nat DATA_SAMPLES) s1 = Some s2
          /\ tx_phase s2 = PREAMBLE_PHASE
          /\ preamble_count s2 = 0 /\ idle_count s2 = 0.
Proof.
  intros Hs Hp Hpc Hsc Hic.
  split; [reflexivity|]. split; [reflexivity|]. split.
  { intros k Hk.
    destruct (preamble_ticks k s) as (sk & Hrun & _ & Hpk & _);
      try assumption; try lia.
    now exists sk. }
  (* the first 31999 ticks, then the one that changes phase *)
  set (n1 := Z.to_nat (PREAMBLE_SAMPLES - 1)).
  assert (Hn1 : Z.of_nat n1 = PREAMBLE_SAMPLES - 1) by (subst n1; machine_arith).
  destruct (preamble_ticks n1 s) as (sa & Hruna & Hsa & Hpa & Hpca & Hsca & Hica);
    try assumption; try lia.
  destruct (T1Interrupt_total sa Hsa) as [s1 H1].
  pose proof (T1Interrupt_ready _ _ Hsa H1) as Hs1.
  destruct (preamble_last_tick sa s1) as (Hp1 & Hpc1 & Hsi1 & Hsc1 & Hic1);
    try assumption; try lia.
  assert (Hd1 : in_data s1).
  { unfold in_data. rewrite Hp1, Hsi1, Hsc1, Hic1, Hica, Hic.
    machine_arith. }
  assert (Hpos1 : data_pos s1 = 0).
  { unfold data_pos. rewrite Hsi1, Hsc1, Hic1, Hica, Hic. machine_arith. }
  assert (Hfr1 : beacon_frame s1 = beacon_frame s).
  { rewrite (T1Interrupt_frame _ _ H1).
    destruct (ticks_ready n1 s Hs) as (sa' & Hruna' & _ & Hfra & _).
    congruence. }
  exists s1. split.
  { replace (Z.to_nat PREAMBLE_SAMPLES) with (n1 + 1)%nat by lia.
    rewrite ticks_add, Hruna. cbn [mbind option_bind ticks].
    now rewrite H1. }
  do 4 (split; [assumption|]). split.
  { intros k Hk.
    destruct (data_ticks k s1) as (sk & Hrun & _ & Hdk & Hposk & _ & Hfrk);
      try assumption; try lia.
    rewrite Hpos1, Z.add_0_l in Hposk.
    destruct (data_pos_symbol sk Hdk) as (Hsym & Hidle & Hbit); [lia|].
    rewrite Hposk, Hfrk, Hfr1 in *.
    exists sk. split; [assumption|]. split; [apply Hdk|].
    split; [exact Hsym|].
    destruct (Z.ltb_spec (Z.of_nat k) (500 * 121)) as [Hlt|Hge].
    - apply Hbit. exact Hlt.
    - apply Hidle. exact Hge. }
  (* the first 61499 data ticks, then the one that changes phase *)
  set (n2 := Z.to_nat (DATA_SAMPLES - 1)).
  assert (Hn2 : Z.of_nat n2 = DATA_SAMPLES - 1) by (subst n2; machine_arith).
  destruct (data_ticks n2 s1) as (sb & Hrunb & Hsb & Hdb & Hposb & Hpcb & _);
    try assumption; try lia.
  destruct (T1Interrupt_total sb Hsb) as [s2 H2].
  destruct (data_last_tick sb s2) as (Hp2 & Hic2 & Hpc2);
    try assumption; try lia.
  exists s2. split.
  { replace (Z.to_nat DATA_SAMPLES) with (n2 + 1)%nat by lia.
    rewrite ticks_add, Hrunb. cbn [mbind option_bind ticks].
    now rewrite H2. }
  split; [assumption|]. split; [congruence | assumption].
Qed.

Lemma tick_cycle_witness :
  ready boot_state
  /\ exists s1,
      ticks (Z.to_nat PREAMBLE_SAMPLES) boot_state = Some s1
      /\ tx_phase s1 = DATA_PHASE
      /\ exists s2,
          ticks (Z.to_nat DATA_SAMPLES) s1 = Some s2
          /\ tx_phase s2 = PREAMBLE_PHASE.
Proof.
  assert (Hr : ready boot_state).
  { split; [simpl; lia|]. split; [simpl; lia|]. split; [reflexivity|].
    apply (bool_decide_unpack _). vm_compute. exact I. }
  split; [exact Hr|].
  destruct (tick_cycle boot_state Hr eq_refl eq_refl eq_refl eq_refl)
    as (_ & _ & _ & s1 & Hrun1 & Hp1 & _ & _ & _ & _ & s2 & Hrun2 & Hp2 & _).
  exists s1. split; [exact Hrun1|]. split; [exact Hp1|].
  exists s2. split; [exact Hrun2 | exact Hp2].
Defined.

(** * Further properties of the source *)

(** ** Fields read back from the frame *)

Section Fields.

Lemma msb_first_bits n v : Forall (fun b => 0 <= b < 2) (msb_first n v).
Proof.
  induction n as [|n IH]; simpl; constructor; [|exact IH].
  destruct (Z.testbit v (Z.of_nat n)); simpl; lia.
Qed.

Lemma weight_nonneg bits : Forall (fun b => 0 <= b < 2) bits -> 0 <= weight bits.
Proof. induction 1; simpl; lia. Qed.

Lemma split_top_bit v n :
  0 <= n ->
  v mod 2 ^ (n + 1) = Z.b2z (Z.testbit v n) * 2 ^ n + v mod 2 ^ n.
Proof.
  intros Hn. rewrite Z.testbit_spec' by assumption.
  rewrite Z.pow_add_r, Z.pow_1_r by lia.
  rewrite Z.rem_mul_r by lia. lia.
Qed.

Lemma fold_msb_first n v : forall acc,
  fold_left (fun a b => 2 * a + b) (msb_first n v) acc =
  acc * 2 ^ Z.of_nat n + v mod 2 ^ Z.of_nat n.
Proof.
  induction n as [|n IH]; intros acc.
  - simpl. rewrite Z.mod_1_r. lia.
  - cbn [msb_first fold_left]. rewrite IH.
    replace (Z.of_nat (S n)) with (Z.of_nat n + 1) by lia.
    rewrite split_top_bit by lia.
    rewrite Z.pow_add_r, Z.pow_1_r by lia. lia.
Qed.

Lemma from_msb_first_mod n v :
  from_msb_first (msb_first n v) = v mod 2 ^ Z.of_nat n.
Proof. unfold from_msb_first. rewrite fold_msb_first. lia. Qed.

End Fields.

(** X1. A field loop of the builder is lossless up to the field width:
    it overwrites exactly the [n] elements at [bit_index] with bits, leaves
    the rest of the buffer alone, advances [bit_index] by [n], and the bits
    read back most significant first give the value modulo [2^n]. *)
Theorem put_field_round_trip (n : nat) (v : Z) (pre mid post : list Z) :
  length mid = n ->
  exists bits,
    put_field n v (pre ++ mid ++ post, Z.of_nat (length pre)) =
    Some (pre ++ bits ++ post, Z.of_nat (length pre) + Z.of_nat n)
    /\ length bits = n
    /\ Forall (fun b => 0 <= b < 2) bits
    /\ from_msb_first bits = v mod 2 ^ Z.of_nat n.
Proof.
  intros Hmid. exists (msb_first n v).
  split; [|split; [|split]].
  - rewrite (put_field_spec n v pre mid post _ Hmid eq_refl).
    now rewrite <- app_assoc.
  - apply length_msb_first.
  - apply msb_first_bits.
  - apply from_msb_first_mod.
Qed.

Lemma put_field_round_trip_witness :
  length [7; 7; 7; 7] = 4%nat
  /\ exists bits,
      put_field 4 0x1A ([9] ++ [7; 7; 7; 7] ++ [9], 1) =
      Some ([9] ++ bits ++ [9], 1 + 4)
      /\ from_msb_first bits = 0x1A mod 2 ^ 4.
Proof.
  split; [reflexivity|].
  destruct (put_field_round_trip 4 0x1A [9] [7; 7; 7; 7] [9] eq_refl)
    as (bits & Hrun & _ & _ & Hval).
  exists bits. split; [exact Hrun | exact Hval].
Defined.

(** X2. The parity of [bch_encode_31_21] always fits its 10-bit field, so
    the frame carries it without loss: reading the field back gives the
    parity itself. *)
Theorem bch_encode_31_21_fits (data : Z) :
  0 <= bch_encode_31_21 data < 2 ^ 10
  /\ from_msb_first (msb_first 10 (bch_encode_31_21 data)) =
     bch_encode_31_21 data.
Proof.
  assert (Hr : 0 <= bch_encode_31_21 data < 2 ^ 10).
  { unfold bch_encode_31_21. rewrite parity_small.
    change 0x3FF with (Z.ones 10). rewrite Z.land_ones by lia.
    apply Z.mod_pos_bound. lia. }
  split; [exact Hr|].
  rewrite from_msb_first_mod. apply Z.mod_small. exact Hr.
Qed.

(** ** Distance of the position code *)

Section Distance.

Lemma bit_lists_complete (l : list Z) : forall k : nat,
  Forall (fun b => 0 <= b < 2) l ->
  weight l <= Z.of_nat k ->
  l ∈ bit_lists (length l) k.
Proof.
  induction l as [|b l IH]; intros k Hbits Hw.
  - simpl. apply list_elem_of_singleton. reflexivity.
  - inversion Hbits as [|? ? Hb Hl]; subst.
    pose proof (weight_nonneg l Hl) as Hnn.
    cbn [weight foldr] in Hw. fold (weight l) in Hw.
    cbn [length bit_lists]. apply elem_of_app.
    assert (b = 0 \/ b = 1) as [-> | ->] by lia.
    + left. apply list_elem_of_fmap. exists l. split; [reflexivity|].
      apply IH; [assumption | lia].
    + right. destruct k as [|k]; [lia|].
      apply list_elem_of_fmap. exists l. split; [reflexivity|].
      apply IH; [assumption | lia].
Qed.

Lemma light_words_checked :
  Forall (fun l => light_word_ok l = true) (bit_lists 21 2).
Proof. apply (bool_decide_unpack _). vm_compute. exact I. Qed.

Lemma light_word_ok_spec l :
  light_word_ok l = true ->
  from_msb_first l = 0 \/ 3 <= codeword_weight (from_msb_first l).
Proof.
  unfold light_word_ok. intros Hok.
  apply orb_true_iff in Hok as [H0 | H3].
  - left. now apply Z.eqb_eq.
  - right. now apply Z.leb_le.
Qed.

Lemma from_msb_first_21 D :
  0 <= D < 2 ^ 21 -> from_msb_first (msb_first 21 D) = D.
Proof.
  intros HD. rewrite from_msb_first_mod.
  change (Z.of_nat 21) with 21. now apply Z.mod_small.
Qed.

(** Every non-zero position has a codeword of weight at least 3. *)
Lemma codeword_weight_min D :
  0 <= D < 2 ^ 21 -> D <> 0 -> 3 <= codeword_weight D.
Proof.
  intros HD Hnz.
  pose proof (msb_first_bits 21 D) as Hbits.
  pose proof (weight_nonneg _ (msb_first_bits 10 (bch_encode_31_21 D))) as Hp.
  pose proof (weight_nonneg _ Hbits) as Hd.
  destruct (Z_lt_le_dec (weight (msb_first 21 D)) 3) as [Hlight|Hheavy].
  - pose proof (bit_lists_complete (msb_first 21 D) 2 Hbits) as Hin.
    rewrite length_msb_first in Hin.
    assert (Hw : weight (msb_first 21 D) <= Z.of_nat 2) by lia.
    specialize (Hin Hw).
    pose proof (proj1 (Forall_forall _ _) light_words_checked _ Hin) as Hok.
    apply light_word_ok_spec in Hok.
    rewrite (from_msb_first_21 D HD) in Hok.
    destruct Hok as [H0 | H3]; [contradiction | exact H3].
  - unfold codeword_weight. lia.
Qed.

Lemma bch_encode_31_21_lxor A B :
  bch_encode_31_21 (Z.lxor A B) =
  Z.lxor (bch_encode_31_21 A) (bch_encode_31_21 B).
Proof.
  unfold bch_encode_31_21.
  rewrite !parity_small, land_lxor_distr_r.
  rewrite <- (Z.lxor_0_l 0) at 1.
  now rewrite count_down_bch_lxor, land_lxor_distr_r.
Qed.

Lemma lxor_21_bits A B :
  0 <= A < 2 ^ 21 -> 0 <= B < 2 ^ 21 -> 0 <= Z.lxor A B < 2 ^ 21.
Proof.
  intros HA HB.
  assert (Hm : Z.lxor A B mod 2 ^ 21 = Z.lxor A B).
  { rewrite <- !Z.land_ones, land_lxor_distr_r, !Z.land_ones by lia.
    rewrite !Z.mod_small by assumption. reflexivity. }
  rewrite <- Hm. apply Z.mod_pos_bound. lia.
Qed.

End Distance.

(** X3. The codewords of two different 21-bit positions (data bits and
    parity together) differ in at least 3 bit places, so the parity
    reveals every error of one or two bits; the bound is reached, by the
    positions 0 and 0x800, so the code does not have the distance 5 of a
    BCH(31,21) code. *)
Theorem bch_codeword_distance :
  (forall A B : Z,
      0 <= A < 2 ^ 21 -> 0 <= B < 2 ^ 21 -> A <> B ->
      3 <= hamming 21 A B
           + hamming 10 (bch_encode_31_21 A) (bch_encode_31_21 B))
  /\ hamming 21 0 0x800
     + hamming 10 (bch_encode_31_21 0) (bch_encode_31_21 0x800) = 3.
Proof.
  split; [|reflexivity].
  intros A B HA HB Hne. unfold hamming.
  rewrite <- bch_encode_31_21_lxor.
  apply (codeword_weight_min (Z.lxor A B)).
  - now apply lxor_21_bits.
  - intros H0. apply Hne. now apply Z.lxor_eq.
Qed.

Lemma bch_codeword_distance_witness :
  (0 <= 0x1A5F3 < 2 ^ 21) /\ (0 <= 0x1A5F2 < 2 ^ 21) /\ 0x1A5F3 <> 0x1A5F2
  /\ 3 <= hamming 21 0x1A5F3 0x1A5F2
          + hamming 10 (bch_encode_31_21 0x1A5F3) (bch_encode_31_21 0x1A5F2).
Proof.
  split; [lia|]. split; [lia|]. split; [lia|].
  apply (proj1 bch_codeword_distance); lia.
Defined.

(** ** Fixed-point arithmetic of the tables *)

Section FixedPoint.

Lemma to_int32_exact z : - 2 ^ 31 <= z < 2 ^ 31 -> Mach.to_int32 z = z.
Proof.
  intros Hz. unfold Mach.to_int32.
  rewrite Z.mod_small by lia. lia.
Qed.

Lemma q15_product a b :
  - 32767 <= a <= 32767 -> - 32767 <= b <= 32767 ->
  - 1073676289 <= a * b <= 1073676289.
Proof. intros Ha Hb. nia. Qed.

End FixedPoint.

(** X4. With Q15 operands of magnitude at most 32767 the 32-bit
    accumulator of a table entry never wraps: the product, and the
    difference and the sum of two products, are the exact integers. *)
Theorem q15_accumulator_exact (a b c d : Z) :
  - 32767 <= a <= 32767 -> - 32767 <= b <= 32767 ->
  - 32767 <= c <= 32767 -> - 32767 <= d <= 32767 ->
  mul32 a b = a * b
  /\ sub32 (mul32 a b) (mul32 c d) = a * b - c * d
  /\ add32 (mul32 a b) (mul32 c d) = a * b + c * d.
Proof.
  intros Ha Hb Hc Hd.
  pose proof (q15_product a b Ha Hb) as Hab.
  pose proof (q15_product c d Hc Hd) as Hcd.
  unfold mul32, sub32, add32.
  rewrite !(to_int32_exact (a * b)), !(to_int32_exact (c * d)) by lia.
  repeat split; apply to_int32_exact; lia.
Qed.

Lemma q15_accumulator_exact_witness :
  (- 32767 <= 10126 <= 32767) /\ (- 32767 <= COS_1P1_Q15 <= 32767)
  /\ (- 32767 <= 31163 <= 32767) /\ (- 32767 <= SIN_1P1_Q15 <= 32767)
  /\ sub32 (mul32 10126 COS_1P1_Q15) (mul32 31163 SIN_1P1_Q15)
     = 10126 * COS_1P1_Q15 - 31163 * SIN_1P1_Q15.
Proof.
  assert (HC : - 32767 <= COS_1P1_Q15 <= 32767) by (unfold COS_1P1_Q15; lia).
  assert (HS : - 32767 <= SIN_1P1_Q15 <= 32767) by (unfold SIN_1P1_Q15; lia).
  split; [lia|]. split; [exact HC|]. split; [lia|]. split; [exact HS|].
  apply (q15_accumulator_exact 10126 COS_1P1_Q15 31163 SIN_1P1_Q15);
    (lia || assumption).
Defined.

(** X5. The code [(uint16_t)(DAC_OFFSET + (acc >> 18))] of a 32-bit
    accumulator is a 12-bit DAC code exactly when the accumulator lies in
    [-2^29, 2^29): an accumulator below wraps to a code above 59000, one
    above gives a code between 4096 and 10239. *)
Theorem dac_code_in_range_iff (acc : Z) :
  - 2 ^ 31 <= acc < 2 ^ 31 ->
  (0 <= dac_code acc <= 4095 <-> - 2 ^ 29 <= acc < 2 ^ 29)
  /\ (acc < - 2 ^ 29 -> 59392 <= dac_code acc < 65536)
  /\ (2 ^ 29 <= acc -> 4096 <= dac_code acc <= 10239).
Proof.
  intros Hacc. unfold dac_code, add32, Mach.asr, DAC_OFFSET.
  rewrite Z.shiftr_div_pow2 by lia.
  assert (Hq : - 8192 <= acc / 2 ^ 18 <= 8191).
  { change (2 ^ 18) with 262144. change (2 ^ 31) with 2147483648 in Hacc.
    Z.to_euclidean_division_equations. lia. }
  rewrite to_int32_exact by lia.
  unfold Mach.to_uint16, Mach.to_unsigned.
  change (2 ^ 18) with 262144 in *. change (2 ^ 16) with 65536.
  change (2 ^ 29) with 536870912. change (2 ^ 31) with 2147483648 in Hacc.
  Z.to_euclidean_division_equations. lia.
Qed.

Lemma dac_code_in_range_iff_witness :
  (- 2 ^ 31 <= -759343121 < 2 ^ 31)
  /\ (-759343121 < - 2 ^ 29 -> 59392 <= dac_code (-759343121) < 65536).
Proof.
  split; [lia|].
  apply (dac_code_in_range_iff (-759343121)). lia.
Defined.

(** ** DAC start-up *)

Section DacInit.

Lemma testbit_to_uint16 y n :
  0 <= n -> Z.testbit (Mach.to_uint16 y) n = Z.testbit y n && (n <? 16).
Proof.
  intros Hn. unfold Mach.to_uint16, Mach.to_unsigned.
  rewrite <- Z.land_ones, Z.land_spec, Z.testbit_ones_nonneg by lia.
  reflexivity.
Qed.

Lemma testbit_above_16 x n :
  0 <= x < 2 ^ 16 -> 16 <= n -> Z.testbit x n = false.
Proof.
  intros Hx Hn. destruct (Z.eq_dec x 0) as [->|Hx0]; [apply Z.bits_0|].
  apply Z.bits_above_log2; [lia|].
  assert (Z.log2 x < 16) by (apply Z.log2_lt_pow2; lia). lia.
Qed.

Lemma testbit_1 n : n <> 0 -> Z.testbit 1 n = false.
Proof.
  intros Hn. destruct (Z_lt_le_dec n 0).
  - now apply Z.testbit_neg_r.
  - apply Z.bits_above_log2; simpl; lia.
Qed.

(** [ANSELB |= 0x0001] changes bit 0 only. *)
Lemma set_bit0_other x n :
  0 <= x < 2 ^ 16 -> n <> 0 ->
  Z.testbit (Mach.to_uint16 (Z.lor x 1)) n = Z.testbit x n.
Proof.
  intros Hx Hn. destruct (Z_lt_le_dec n 0).
  - now rewrite !Z.testbit_neg_r.
  - rewrite testbit_to_uint16, Z.lor_spec, testbit_1, orb_false_r by lia.
    destruct (Z.ltb_spec n 16); [apply andb_true_r|].
    rewrite testbit_above_16 by lia. reflexivity.
Qed.

(** [TRISB &= ~0x0001] changes bit 0 only. *)
Lemma clear_bit0_other x n :
  0 <= x < 2 ^ 16 -> n <> 0 ->
  Z.testbit (Mach.to_uint16 (Z.land x (Z.lnot 1))) n = Z.testbit x n.
Proof.
  intros Hx Hn. destruct (Z_lt_le_dec n 0).
  - now rewrite !Z.testbit_neg_r.
  - rewrite testbit_to_uint16, Z.land_spec, Z.lnot_spec, testbit_1 by lia.
    cbn [negb]. rewrite andb_true_r.
    destruct (Z.ltb_spec n 16); [apply andb_true_r|].
    rewrite testbit_above_16 by lia. reflexivity.
Qed.

End DacInit.

(** X6. [init_dac] makes RB0 an analog output and touches no other pin:
    it sets bit 0 of [ANSELB], clears bit 0 of [TRISB] and leaves every
    other bit of the two registers as it found it; it enables the DAC and
    its output ([DAC1CONL] = 0xA000, [DAC1CONH] = 0) and loads the
    mid-scale code, split as the handler splits it:
    [256 * DAC1DATH + DAC1DATL = DAC_OFFSET]. *)
Theorem init_dac_effect (r : Hw.dac_regs) :
  0 <= Hw.ANSELB r < 2 ^ 16 -> 0 <= Hw.TRISB r < 2 ^ 16 ->
  Z.testbit (Hw.ANSELB (Hw.init_dac r)) 0 = true
  /\ Z.testbit (Hw.TRISB (Hw.init_dac r)) 0 = false
  /\ (forall n : Z, n <> 0 ->
      Z.testbit (Hw.ANSELB (Hw.init_dac r)) n = Z.testbit (Hw.ANSELB r) n
      /\ Z.testbit (Hw.TRISB (Hw.init_dac r)) n = Z.testbit (Hw.TRISB r) n)
  /\ Hw.DAC1CONL (Hw.init_dac r) = 0xA000
  /\ Hw.DAC1CONH (Hw.init_dac r) = 0
  /\ 256 * Hw.DAC1DATH (Hw.init_dac r) + Hw.DAC1DATL (Hw.init_dac r)
     = DAC_OFFSET.
Proof.
  intros Ha Ht. cbn [Hw.init_dac Hw.ANSELB Hw.TRISB Hw.DAC1CONL Hw.DAC1CONH
                     Hw.DAC1DATH Hw.DAC1DATL].
  split; [|split; [|split; [|repeat split]]].
  - rewrite testbit_to_uint16, Z.lor_spec by lia.
    change (Z.testbit 1 0) with true. now rewrite orb_true_r.
  - rewrite testbit_to_uint16, Z.land_spec, Z.lnot_spec by lia.
    change (Z.testbit 1 0) with true. cbn [negb].
    now rewrite andb_false_r.
  - intros n Hn. split.
    + now apply set_bit0_other.
    + now apply clear_bit0_other.
Qed.

Lemma init_dac_effect_witness :
  (0 <= 0xFFFF < 2 ^ 16) /\ (0 <= 0xFFFF < 2 ^ 16)
  /\ Hw.ANSELB (Hw.init_dac (Hw.DacRegs 0xFFFF 0xFFFF 0 0 0 0)) = 0xFFFF
  /\ Hw.TRISB (Hw.init_dac (Hw.DacRegs 0xFFFF 0xFFFF 0 0 0 0)) = 0xFFFE
  /\ Z.testbit (Hw.TRISB (Hw.init_dac (Hw.DacRegs 0xFFFF 0xFFFF 0 0 0 0))) 0
     = false.
Proof.
  split; [lia|]. split; [lia|]. split; [reflexivity|]. split; [reflexivity|].
  apply (init_dac_effect (Hw.DacRegs 0xFFFF 0xFFFF 0 0 0 0)); simpl; lia.
Defined.

(** ** What the handler writes *)

Section HandlerWrites.

Lemma dac_split z :
  Z.land (Z.shiftr z 8) 0x0F = (z / 256) mod 16
  /\ Z.land z 0xFF = z mod 256.
Proof.
  change 0x0F with (Z.ones 4). change 0xFF with (Z.ones 8).
  rewrite !Z.land_ones, Z.shiftr_div_pow2 by lia. split; reflexivity.
Qed.

Lemma precomputed_dac_codes : Forall (fun c => 0 <= c <= 4095) precomputed_dac.
Proof. apply (bool_decide_unpack _). vm_compute. exact I. Qed.

Lemma T1Interrupt_writes s s' :
  T1Interrupt s = Some s' ->
  0 <= DAC1DATH s' < 16
  /\ 0 <= DAC1DATL s' < 256
  /\ 256 * DAC1DATH s' + DAC1DATL s' = debug_dac_value s' mod 4096
  /\ T1IF s' = 0.
Proof.
  intros H. tick_paths H;
    cbn [DAC1DATH DAC1DATL debug_dac_value T1IF];
    match goal with
    | |- context [Z.land (Z.shiftr ?z 8) _] =>
        destruct (dac_split z) as [-> ->]
    end;
    (split; [|split; [|split; [|reflexivity]]]);
    Z.to_euclidean_division_equations; lia.
Qed.

End HandlerWrites.

(** X7. The handler never writes the frame buffer: after any number of
    ticks the buffer is what it was. *)
Theorem ticks_keep_frame (n : nat) (s s' : state) :
  ticks n s = Some s' -> beacon_frame s' = beacon_frame s.
Proof.
  revert s. induction n as [|n IH]; intros s H.
  - injection H as <-. reflexivity.
  - cbn [ticks] in H. destruct (T1Interrupt s) as [s1|] eqn:H1;
      cbn [mbind option_bind] in H; [|discriminate].
    rewrite (IH s1 H). exact (T1Interrupt_frame s s1 H1).
Qed.

Lemma ticks_keep_frame_witness :
  exists s', ticks 1000 boot_state = Some s'
             /\ beacon_frame s' = beacon_frame boot_state.
Proof.
  assert (Hr : ready boot_state).
  { split; [simpl; lia|]. split; [simpl; lia|]. split; [reflexivity|].
    apply (bool_decide_unpack _). vm_compute. exact I. }
  destruct (ticks_ready 1000 boot_state Hr) as (s' & Hrun & _).
  exists s'. split; [exact Hrun|].
  exact (ticks_keep_frame 1000 boot_state s' Hrun).
Defined.

(** X8. Every invocation leaves in the two DAC data registers the low 12
    bits of the code it reports in [debug_dac_value], the upper four in
    [DAC1DATH] and the lower eight in [DAC1DATL], and clears the
    interrupt flag. *)
Theorem T1Interrupt_registers (s s' : state) :
  T1Interrupt s = Some s' ->
  0 <= DAC1DATH s' < 16
  /\ 0 <= DAC1DATL s' < 256
  /\ 256 * DAC1DATH s' + DAC1DATL s' = debug_dac_value s' mod 4096
  /\ T1IF s' = 0.
Proof. exact (T1Interrupt_writes s s'). Qed.

Lemma T1Interrupt_registers_witness :
  exists s',
    T1Interrupt (State DATA_PHASE 1 0 0 1 17 built_frame 3906 15 66 0)
    = Some s'
    /\ 256 * DAC1DATH s' + DAC1DATL s' = debug_dac_value s' mod 4096.
Proof.
  eexists. split; [reflexivity|].
  eapply (T1Interrupt_registers
            (State DATA_PHASE 1 0 0 1 17 built_frame 3906 15 66 0)).
  reflexivity.
Defined.

(** X9. In the preamble phase the code sent is the carrier table entry of
    the current carrier phase, it is a 12-bit code, and the DAC registers
    hold it whole. *)
Theorem preamble_code_exact (s s' : state) :
  tx_phase s = PREAMBLE_PHASE ->
  T1Interrupt s = Some s' ->
  index precomputed_dac (carrier_phase s) = Some (debug_dac_value s')
  /\ 0 <= debug_dac_value s' <= 4095
  /\ 256 * DAC1DATH s' + DAC1DATL s' = debug_dac_value s'.
Proof.
  intros Hp H.
  destruct (T1Interrupt_writes s s' H) as (_ & _ & Hsplit & _).
  assert (Hidx : index precomputed_dac (carrier_phase s)
                 = Some (debug_dac_value s')).
  { tick_paths H; try contradiction; reflexivity. }
  pose proof (index_Forall _ _ _ _ precomputed_dac_codes Hidx) as Hrange.
  cbv beta in Hrange.
  split; [exact Hidx|]. split; [exact Hrange|].
  rewrite Hsplit. apply Z.mod_small. lia.
Qed.

Lemma preamble_code_exact_witness :
  tx_phase boot_state = PREAMBLE_PHASE
  /\ exists s', T1Interrupt boot_state = Some s'
                /\ 0 <= debug_dac_value s' <= 4095.
Proof.
  split; [reflexivity|].
  eexists. split; [reflexivity|].
  eapply (preamble_code_exact boot_state); reflexivity.
Defined.

(** ** Carrier phase and counters *)

Section Coherence.

Lemma run_build_counters s s' :
  run_build s = Some s' ->
  tx_phase s' = tx_phase s /\ carrier_phase s' = carrier_phase s
  /\ preamble_count s' = preamble_count s /\ idle_count s' = idle_count s
  /\ sample_count s' = sample_count s /\ symbol_index s' = symbol_index s.
Proof.
  unfold run_build. intros H.
  destruct (build_beacon_frame (beacon_frame s)) as [st|];
    cbn [mbind option_bind] in H; [|discriminate].
  injection H as <-. repeat split.
Qed.

Lemma T1Interrupt_coherent s s' :
  bounds s -> coherent s -> T1Interrupt s = Some s' -> coherent s'.
Proof.
  intros (Hcp & Hsi & Hsc & Hpc & Hic) Hco H. unfold coherent in *.
  tick_paths H; rewrite next_carrier_phase_mod by assumption; machine_arith.
Qed.

Lemma reachable_is_coherent s : reachable s -> coherent s.
Proof.
  induction 1 as [|s s' Hs IH Hrun|s s' Hs IH Hrun].
  - left. repeat split.
  - destruct (run_build_counters _ _ Hrun) as (Ht & Hc & Hp & Hi & Hsc & Hsi).
    unfold coherent. rewrite Ht, Hc, Hp, Hi, Hsc, Hsi. exact IH.
  - destruct (reachable_ready s Hs) as [_ Hb].
    exact (T1Interrupt_coherent s s' Hb IH Hrun).
Qed.

End Coherence.

(** X10. In every state the program reaches the carrier phase is tied to
    the counters: it equals [preamble_count mod 5] in the preamble and
    [sample_count mod 5] in the data phase (where [preamble_count] rests
    at 0), and idle symbols are counted only once the last frame bit has
    gone. Hence every symbol period starts at carrier phase 0. *)
Theorem reachable_coherent (s : state) :
  reachable s ->
  coherent s
  /\ (tx_phase s = PREAMBLE_PHASE \/ tx_phase s = DATA_PHASE)
  /\ (tx_phase s = DATA_PHASE -> sample_count s = 0 -> carrier_phase s = 0).
Proof.
  intros Hs. pose proof (reachable_is_coherent s Hs) as Hco.
  split; [exact Hco|].
  unfold coherent in Hco. machine_arith.
Qed.

Lemma reachable_coherent_witness :
  reachable boot_state /\ coherent boot_state.
Proof.
  assert (Hreach : reachable boot_state).
  { apply (reach_build zero_state); [constructor | reflexivity]. }
  split; [exact Hreach|].
  exact (proj1 (reachable_coherent boot_state Hreach)).
Defined.

(** ** The cycle repeats *)

Section Cycle.

Lemma data_last_tick_counters s s' :
  in_data s -> data_pos s + 1 = DATA_SAMPLES ->
  T1Interrupt s = Some s' ->
  sample_count s' = 0 /\ symbol_index s' = MESSAGE_BITS.
Proof.
  intros (Hp & Hsi & Hsc & Hic & Hidle) Hlt H.
  unfold in_data, data_pos, DATA_SAMPLES in *.
  tick_paths H; machine_arith.
Qed.

(** One preamble and one data burst: 93500 ticks from the first tick of a
    preamble to the first tick of the next. *)
Lemma one_cycle s :
  ready s -> cycle_start s ->
  exists s',
    ticks (Z.to_nat CYCLE_SAMPLES) s = Some s'
    /\ ready s' /\ cycle_start s'
    /\ sample_count s' = 0 /\ symbol_index s' = MESSAGE_BITS
    /\ carrier_phase s' = carrier_phase s
    /\ beacon_frame s' = beacon_frame s.
Proof.
  intros Hs (Hp & Hpc & Hic).
  set (n1 := Z.to_nat (PREAMBLE_SAMPLES - 1)).
  assert (Hn1 : Z.of_nat n1 = PREAMBLE_SAMPLES - 1) by (subst n1; machine_arith).
  destruct (preamble_ticks n1 s) as (sa & Hruna & Hsa & Hpa & Hpca & _ & Hica);
    try assumption; try lia.
  destruct (T1Interrupt_total sa Hsa) as [s1 H1].
  pose proof (T1Interrupt_ready _ _ Hsa H1) as Hs1.
  destruct (preamble_last_tick sa s1) as (Hp1 & Hpc1 & Hsi1 & Hsc1 & Hic1);
    try assumption; try lia.
  assert (Hd1 : in_data s1).
  { unfold in_data. rewrite Hp1, Hsi1, Hsc1, Hic1, Hica, Hic.
    machine_arith. }
  assert (Hpos1 : data_pos s1 = 0).
  { unfold data_pos. rewrite Hsi1, Hsc1, Hic1, Hica, Hic. machine_arith. }
  set (n2 := Z.to_nat (DATA_SAMPLES - 1)).
  assert (Hn2 : Z.of_nat n2 = DATA_SAMPLES - 1) by (subst n2; machine_arith).
  destruct (data_ticks n2 s1) as (sb & Hrunb & Hsb & Hdb & Hposb & Hpcb & _);
    try assumption; try lia.
  destruct (T1Interrupt_total sb Hsb) as [s2 H2].
  destruct (data_last_tick sb s2) as (Hp2 & Hic2 & Hpc2);
    try assumption; try lia.
  destruct (data_last_tick_counters sb s2) as (Hsc2 & Hsi2);
    try assumption; try lia.
  assert (Hrun : ticks (Z.to_nat CYCLE_SAMPLES) s = Some s2).
  { replace (Z.to_nat CYCLE_SAMPLES) with ((n1 + 1) + (n2 + 1))%nat
      by (unfold CYCLE_SAMPLES; lia).
    rewrite ticks_add, ticks_add, Hruna. cbn [mbind option_bind ticks].
    rewrite H1. cbn [mbind option_bind].
    rewrite ticks_add, Hrunb. cbn [mbind option_bind ticks].
    now rewrite H2. }
  destruct (ticks_ready (Z.to_nat CYCLE_SAMPLES) s Hs)
    as (s2' & Hrun' & Hs2 & Hfr & Hcp).
  rewrite Hrun in Hrun'. injection Hrun' as <-.
  exists s2. split; [exact Hrun|]. split; [exact Hs2|].
  split; [repeat split; congruence|].
  split; [exact Hsc2|]. split; [exact Hsi2|]. split; [|exact Hfr].
  rewrite Hcp. destruct Hs as (Hc & _).
  replace (Z.of_nat (Z.to_nat CYCLE_SAMPLES)) with 93500 by reflexivity.
  Z.to_euclidean_division_equations. lia.
Qed.

Lemma cycles m : forall s,
  ready s -> cycle_start s ->
  exists s',
    ticks (m * Z.to_nat CYCLE_SAMPLES) s = Some s'
    /\ ready s' /\ cycle_start s'
    /\ carrier_phase s' = carrier_phase s
    /\ beacon_frame s' = beacon_frame s.
Proof.
  induction m as [|m IH]; intros s Hs Hc.
  - exists s. cbn [Nat.mul ticks]. repeat split; try apply Hs; apply Hc.
  - destruct (one_cycle s Hs Hc)
      as (s1 & Hrun1 & Hs1 & Hc1 & _ & _ & Hcp1 & Hfr1).
    destruct (IH s1 Hs1 Hc1) as (s' & Hrun & Hs' & Hc' & Hcp & Hfr).
    exists s'. rewrite Nat.mul_succ_l, Nat.add_comm, ticks_add, Hrun1.
    cbn [mbind option_bind].
    split; [exact Hrun|]. split; [exact Hs'|]. split; [exact Hc'|].
    split; congruence.
Qed.

End Cycle.

(** X11. The transmission repeats every 93500 ticks (32000 of preamble and
    61500 of data): from the first tick of a preamble, any whole number of
    cycles later the handler is again at the first tick of a preamble, at
    the same carrier phase and with the same frame. *)
Theorem cycle_repeats (s : state) (m : nat) :
  ready s -> cycle_start s ->
  CYCLE_SAMPLES = 93500
  /\ exists s',
      ticks (m * Z.to_nat CYCLE_SAMPLES) s = Some s'
      /\ cycle_start s'
      /\ carrier_phase s' = carrier_phase s
      /\ beacon_frame s' = beacon_frame s.
Proof.
  intros Hs Hc. split; [reflexivity|].
  destruct (cycles m s Hs Hc) as (s' & Hrun & _ & Hc' & Hcp & Hfr).
  now exists s'.
Qed.

Lemma cycle_repeats_witness :
  ready boot_state /\ cycle_start boot_state
  /\ exists s',
      ticks (3 * Z.to_nat CYCLE_SAMPLES) boot_state = Some s'
      /\ cycle_start s'
      /\ carrier_phase s' = carrier_phase boot_state.
Proof.
  assert (Hr : ready boot_state).
  { split; [simpl; lia|]. split; [simpl; lia|]. split; [reflexivity|].
    apply (bool_decide_unpack _). vm_compute. exact I. }
  assert (Hc : cycle_start boot_state) by (repeat split).
  split; [exact Hr|]. split; [exact Hc|].
  destruct (cycle_repeats boot_state 3 Hr Hc)
    as (_ & s' & Hrun & Hc' & Hcp & _).
  exists s'. split; [exact Hrun|]. split; [exact Hc' | exact Hcp].
Defined.
